(** * react-native-sliders: value mapping, range-slider gestures, theme colours

    A shallow embedding of [lib/utils.ts], [lib/constants.ts], [slider.tsx]
    and [range-slider.tsx], written twice.

    - The first embedding computes on exact rationals ([Q], equality [==]):
      it is the code with every arithmetic operation exact, and carries the
      properties of order and of the gesture state machines.
    - The second embedding, in the modules whose names start with [Double],
      computes on IEEE 754 binary64 numbers as JavaScript does, with
      rounding, overflow, infinities, signed zeros and NaN; it carries the
      properties that depend on the arithmetic.

    In both, a division whose divisor is zero makes the result [None]. *)

From Stdlib Require Import QArith Qround Qabs Lqa Lia ZArith List String Bool.
From Stdlib Require Import Floats.SpecFloat.
Import ListNotations.

Local Open Scope Q_scope.

(** ** Numbers *)

Module Num.

(** [a / b] of the source: defined only for a non-zero divisor. *)
Definition div (a b : Q) : option Q :=
  if Qeq_bool b 0 then None else Some (a / b).

(** [a > b] and [a < b] of the source, as booleans. *)
Definition ltb (a b : Q) : bool := negb (Qle_bool b a).
Definition gtb (a b : Q) : bool := ltb b a.
Definition geb (a b : Q) : bool := Qle_bool b a.

(** [Math.max], [Math.min], [Math.abs], [Math.round]. *)
Definition Math_max (a b : Q) : Q := if Qle_bool a b then b else a.
Definition Math_min (a b : Q) : Q := if Qle_bool a b then a else b.
Definition Math_abs (a : Q) : Q := Qabs a.
(** [Math.round] rounds to the nearest integer, halves towards +infinity. *)
Definition Math_round (a : Q) : Q := inject_Z (Qfloor (a + (1 # 2))).

(** Sequencing of computations that may leave the finite numbers. *)
Definition bind {A B : Type} (m : option A) (k : A -> option B) : option B :=
  match m with
  | Some a => k a
  | None => None
  end.

End Num.

Import Num.

Notation "x <- m ;; k" := (bind m (fun x => k))
  (at level 61, m at next level, right associativity).

(** ** The interpolation of the animation library *)

(** The extrapolation argument of [interpolate]: absent (the library's
    default, which extends the line) or ["clamp"]. *)
Inductive Extrapolation : Type :=
| Extend
| Clamp.

(** Modelled from the spec: [interpolate] is imported from the animation
    library and is not part of the repository.  Following the spec, it maps
    [x] linearly from the input range to the output range, a zero-width input
    range yields the left output edge, and with ["clamp"] a result outside the
    output range is replaced by the nearer output edge.  Every call site
    passes two-element ranges, modelled as pairs. *)
Definition interpolate (x : Q) (input output : Q * Q) (type : Extrapolation)
  : option Q :=
  let '(leftEdgeInput, rightEdgeInput) := input in
  let '(leftEdgeOutput, rightEdgeOutput) := output in
  if Qeq_bool (rightEdgeInput - leftEdgeInput) 0 then Some leftEdgeOutput
  else
    progress <- div (x - leftEdgeInput) (rightEdgeInput - leftEdgeInput) ;;
    let val := leftEdgeOutput + progress * (rightEdgeOutput - leftEdgeOutput) in
    let coef := if geb rightEdgeOutput leftEdgeOutput then 1 else - (1) in
    match type with
    | Extend => Some val
    | Clamp =>
        if ltb (coef * val) (coef * leftEdgeOutput) then Some leftEdgeOutput
        else if gtb (coef * val) (coef * rightEdgeOutput)
             then Some rightEdgeOutput
             else Some val
    end.

(** ** lib/utils.ts: the value mapper *)

(** [clampPosition(position, min, max)]. *)
Definition clampPosition (position min max : Q) : Q :=
  Math_max min (Math_min max position).

(** [calculateSteppedValue(value, step, min, max)]. *)
Definition calculateSteppedValue (value step min max : Q) : option Q :=
  steppedValue <-
    (if gtb step 0
     then (q <- div value step ;; Some (Math_round q * step))
     else Some value) ;;
  Some (Math_max min (Math_min max steppedValue)).

(** [positionToValue(position, trackWidth, min, max, step)]. *)
Definition positionToValue (position trackWidth min max step : Q) : option Q :=
  let clampedPosition := clampPosition position 0 trackWidth in
  rawValue <- interpolate clampedPosition (0, trackWidth) (min, max) Extend ;;
  calculateSteppedValue rawValue step min max.

(** ** lib/constants.ts and the theme resolver *)

Local Open Scope string_scope.

Inductive Theme : Type :=
| light
| dark.

(** The five colour slots of a slider. *)
Record Colors : Type := mkColors {
  trackColor : string;
  activeTrackColor : string;
  thumbColor : string;
  thumbBorderColor : string;
  thumbFocusRingColor : string
}.

(** The optional per-instance overrides: an absent (or undefined) property is
    [None]. *)
Record CustomColors : Type := mkCustomColors {
  customTrackColor : option string;
  customActiveTrackColor : option string;
  customThumbColor : option string;
  customThumbBorderColor : option string;
  customThumbFocusRingColor : option string
}.

Definition DEFAULT_MIN : Q := 0.
Definition DEFAULT_MAX : Q := 100.
Definition DEFAULT_STEP : Q := 1.
Definition DEFAULT_WIDTH : Q := 300.
Definition DEFAULT_HEIGHT : Q := 40.
Definition DEFAULT_THUMB_SIZE : Q := 20.
Definition DEFAULT_THEME : Theme := light.

Definition THEME_COLORS (theme : Theme) : Colors :=
  match theme with
  | light =>
      {| trackColor := "#F5F5F5";
         activeTrackColor := "#171717";
         thumbColor := "#FFFFFF";
         thumbBorderColor := "#171717";
         thumbFocusRingColor := "#D0D0D0" |}
  | dark =>
      {| trackColor := "#262626";
         activeTrackColor := "#E5E5E5";
         thumbColor := "#0A0A0A";
         thumbBorderColor := "#E5E5E5";
         thumbFocusRingColor := "#3F3F3F" |}
  end.

(** The nullish coalescing operator [a ?? b]. *)
Definition nullish {A : Type} (a : option A) (b : A) : A :=
  match a with
  | Some v => v
  | None => b
  end.

Notation "a ?? b" := (nullish a b) (at level 45, left associativity).

(** [useThemeColors(theme, customColors)]; the memoisation does not change
    the value returned. *)
Definition useThemeColors (theme : Theme) (customColors : CustomColors)
  : Colors :=
  let themeColors := THEME_COLORS theme in
  {| trackColor := customTrackColor customColors ?? trackColor themeColors;
     activeTrackColor :=
       customActiveTrackColor customColors ?? activeTrackColor themeColors;
     thumbColor := customThumbColor customColors ?? thumbColor themeColors;
     thumbBorderColor :=
       customThumbBorderColor customColors ?? thumbBorderColor themeColors;
     thumbFocusRingColor :=
       customThumbFocusRingColor customColors
       ?? thumbFocusRingColor themeColors |}.

(** The object literal [{}] and [{thumbColor: c}]. *)
Definition noCustomColors : CustomColors :=
  mkCustomColors None None None None None.

Definition onlyThumbColor (c : string) : CustomColors :=
  mkCustomColors None None (Some c) None None.

Local Close Scope string_scope.

(** ** slider.tsx: the single-thumb slider at mount *)

Module Slider.

Record Props : Type := mkProps {
  min : Q;
  max : Q;
  initialValue : Q;
  step : Q;
  width : Q;
  thumbSize : Q
}.

Definition trackWidth (props : Props) : Q := width props - thumbSize props.

(** The initial content of the [position] shared value. *)
Definition mount (props : Props) : option Q :=
  interpolate (initialValue props) (min props, max props)
    (0, trackWidth props) Clamp.

(** [updateValue(newPosition)]: the value handed to [onValueChange]. *)
Definition updateValue (props : Props) (newPosition : Q) : option Q :=
  positionToValue newPosition (trackWidth props) (min props) (max props)
    (step props).

End Slider.

(** ** range-slider.tsx: the dual-thumb slider *)

Module RangeSlider.

Record Props : Type := mkProps {
  min : Q;
  max : Q;
  initialMin : Q;
  initialMax : Q;
  step : Q;
  width : Q;
  thumbSize : Q;
  tapToMove : bool
}.

Definition trackWidth (props : Props) : Q := width props - thumbSize props.

(** The shared values of a mounted range slider. *)
Record State : Type := mkState {
  leftPosition : Q;
  rightPosition : Q;
  startLeftPosition : Q;
  startRightPosition : Q;
  isLeftThumbActive : Q;
  isRightThumbActive : Q
}.

(** [withTiming(toValue)]: the shared value is modelled at the value the
    animation ends on. *)
Definition withTiming (toValue : Q) : Q := toValue.

(** The props of [<RangeSlider />]: every destructuring default applies. *)
Definition defaultProps : Props :=
  {| min := DEFAULT_MIN;
     max := DEFAULT_MAX;
     initialMin := DEFAULT_MIN;
     initialMax := DEFAULT_MAX;
     step := DEFAULT_STEP;
     width := DEFAULT_WIDTH;
     thumbSize := DEFAULT_THUMB_SIZE;
     tapToMove := true |}.

(** The shared values as the component creates them. *)
Definition mount (props : Props) : option State :=
  left <- interpolate (initialMin props) (min props, max props)
            (0, trackWidth props) Clamp ;;
  right <- interpolate (initialMax props) (min props, max props)
             (0, trackWidth props) Clamp ;;
  Some {| leftPosition := left;
          rightPosition := right;
          startLeftPosition := 0;
          startRightPosition := 0;
          isLeftThumbActive := 0;
          isRightThumbActive := 0 |}.

(** The gesture callbacks that reach the component. *)
Inductive Event : Type :=
| LeftPanStart
| LeftPanUpdate (translationX : Q)
| LeftPanFinalize
| RightPanStart
| RightPanUpdate (translationX : Q)
| RightPanFinalize
| TapStart (x : Q).

Definition set_leftPosition (v : Q) (s : State) : State :=
  mkState v (rightPosition s) (startLeftPosition s) (startRightPosition s)
    (isLeftThumbActive s) (isRightThumbActive s).

Definition set_rightPosition (v : Q) (s : State) : State :=
  mkState (leftPosition s) v (startLeftPosition s) (startRightPosition s)
    (isLeftThumbActive s) (isRightThumbActive s).

Definition set_startLeftPosition (v : Q) (s : State) : State :=
  mkState (leftPosition s) (rightPosition s) v (startRightPosition s)
    (isLeftThumbActive s) (isRightThumbActive s).

Definition set_startRightPosition (v : Q) (s : State) : State :=
  mkState (leftPosition s) (rightPosition s) (startLeftPosition s) v
    (isLeftThumbActive s) (isRightThumbActive s).

Definition set_isLeftThumbActive (v : Q) (s : State) : State :=
  mkState (leftPosition s) (rightPosition s) (startLeftPosition s)
    (startRightPosition s) v (isRightThumbActive s).

Definition set_isRightThumbActive (v : Q) (s : State) : State :=
  mkState (leftPosition s) (rightPosition s) (startLeftPosition s)
    (startRightPosition s) (isLeftThumbActive s) v.

(** [leftPanGesture]: [onStart], [onUpdate], [onFinalize]. *)
Definition leftPanGesture_onStart (s : State) : State :=
  set_isLeftThumbActive (withTiming 1)
    (set_startLeftPosition (leftPosition s) s).

Definition leftPanGesture_onUpdate (props : Props) (translationX : Q)
    (s : State) : State :=
  let newPosition := startLeftPosition s + translationX in
  set_leftPosition
    (Math_min newPosition (rightPosition s - thumbSize props)) s.

Definition leftPanGesture_onFinalize (s : State) : State :=
  set_isLeftThumbActive (withTiming 0) s.

(** [rightPanGesture]: [onStart], [onUpdate], [onFinalize]. *)
Definition rightPanGesture_onStart (s : State) : State :=
  set_isRightThumbActive (withTiming 1)
    (set_startRightPosition (rightPosition s) s).

Definition rightPanGesture_onUpdate (props : Props) (translationX : Q)
    (s : State) : State :=
  let newPosition := startRightPosition s + translationX in
  set_rightPosition
    (Math_max newPosition (leftPosition s + thumbSize props)) s.

Definition rightPanGesture_onFinalize (s : State) : State :=
  set_isRightThumbActive (withTiming 0) s.

(** The thumb a tap moves. *)
Inductive Thumb : Type :=
| LeftThumb
| RightThumb.

(** The position a tap at [x] aims at. *)
Definition tapTarget (props : Props) (x : Q) : Q :=
  let tapX := x - thumbSize props / 2 in
  clampPosition tapX 0 (trackWidth props).

(** The branch [tapGesture.onStart] takes. *)
Definition tapThumb (props : Props) (x : Q) (s : State) : Thumb :=
  let clampedPosition := tapTarget props x in
  let distToLeft := Math_abs (clampedPosition - leftPosition s) in
  let distToRight := Math_abs (clampedPosition - rightPosition s) in
  if ltb distToLeft distToRight then LeftThumb else RightThumb.

(** [tapGesture.onStart]. *)
Definition tapGesture_onStart (props : Props) (x : Q) (s : State) : State :=
  let clampedPosition := tapTarget props x in
  match tapThumb props x s with
  | LeftThumb => set_leftPosition (withTiming clampedPosition) s
  | RightThumb => set_rightPosition (withTiming clampedPosition) s
  end.

(** One gesture callback; a tap is delivered only when [tapToMove] enables
    the gesture.  The notification [updateRangeValues] writes no shared
    value. *)
Definition step_event (props : Props) (s : State) (e : Event) : State :=
  match e with
  | LeftPanStart => leftPanGesture_onStart s
  | LeftPanUpdate translationX => leftPanGesture_onUpdate props translationX s
  | LeftPanFinalize => leftPanGesture_onFinalize s
  | RightPanStart => rightPanGesture_onStart s
  | RightPanUpdate translationX =>
      rightPanGesture_onUpdate props translationX s
  | RightPanFinalize => rightPanGesture_onFinalize s
  | TapStart x => if tapToMove props then tapGesture_onStart props x s else s
  end.

Definition run (props : Props) (s : State) (events : list Event) : State :=
  fold_left (step_event props) events s.

(** The states a mounted component can be in. *)
Inductive reachable (props : Props) : State -> Prop :=
| reachable_mount : forall s, mount props = Some s -> reachable props s
| reachable_step : forall s e,
    reachable props s -> reachable props (step_event props s e).

(** The range invariant: the thumbs neither cross nor overlap. *)
Definition non_crossing (props : Props) (s : State) : Prop :=
  leftPosition s + thumbSize props <= rightPosition s.

Definition is_pan_update (e : Event) : bool :=
  match e with
  | LeftPanUpdate _ | RightPanUpdate _ => true
  | _ => false
  end.

(** [updateRangeValues]: the pair handed to [onRangeChange]. *)
Definition updateRangeValues (props : Props) (s : State) : option (Q * Q) :=
  leftValue <- interpolate (leftPosition s) (0, trackWidth props)
                 (min props, max props) Clamp ;;
  rightValue <- interpolate (rightPosition s) (0, trackWidth props)
                  (min props, max props) Clamp ;;
  finalLeftValue <-
    calculateSteppedValue leftValue (step props) (min props) (max props) ;;
  finalRightValue <-
    calculateSteppedValue rightValue (step props) (min props) (max props) ;;
  Some (finalLeftValue, finalRightValue).

End RangeSlider.

(** ** slider.tsx: the gestures of the single-thumb slider *)

Module SliderGestures.

(** The shared values of a mounted slider. *)
Record State : Type := mkState {
  position : Q;
  startPosition : Q;
  isThumbActive : Q
}.

(** The gesture callbacks that reach the component. *)
Inductive Event : Type :=
| PanStart
| PanUpdate (translationX : Q)
| PanFinalize
| TapStart (x : Q).

(** The shared values as the component creates them. *)
Definition mount (props : Slider.Props) : option State :=
  position <- Slider.mount props ;;
  Some {| position := position; startPosition := 0; isThumbActive := 0 |}.

(** [panGesture.onStart]. *)
Definition panGesture_onStart (s : State) : State :=
  {| position := position s;
     startPosition := position s;
     isThumbActive := RangeSlider.withTiming 1 |}.

(** [panGesture.onUpdate]: the new state and the values handed to
    [onValueChange]. *)
Definition panGesture_onUpdate (props : Slider.Props) (translationX : Q)
    (s : State) : option (State * list Q) :=
  let newPosition := startPosition s + translationX in
  let clampedPosition := clampPosition newPosition 0 (Slider.trackWidth props) in
  finalValue <- Slider.updateValue props clampedPosition ;;
  Some ({| position := clampedPosition;
           startPosition := startPosition s;
           isThumbActive := isThumbActive s |}, [finalValue]).

(** [panGesture.onFinalize]. *)
Definition panGesture_onFinalize (s : State) : State :=
  {| position := position s;
     startPosition := startPosition s;
     isThumbActive := RangeSlider.withTiming 0 |}.

(** [tapGesture.onStart]. *)
Definition tapGesture_onStart (props : Slider.Props) (x : Q) (s : State)
  : option (State * list Q) :=
  let newPosition := x - Slider.thumbSize props / 2 in
  let clampedPosition := clampPosition newPosition 0 (Slider.trackWidth props) in
  finalValue <- Slider.updateValue props clampedPosition ;;
  Some ({| position := RangeSlider.withTiming clampedPosition;
           startPosition := startPosition s;
           isThumbActive := isThumbActive s |}, [finalValue]).

(** One gesture callback; a tap is delivered only when [tapToMove] enables
    the gesture. *)
Definition step_event (props : Slider.Props) (tapToMove : bool) (s : State)
    (e : Event) : option (State * list Q) :=
  match e with
  | PanStart => Some (panGesture_onStart s, [])
  | PanUpdate translationX => panGesture_onUpdate props translationX s
  | PanFinalize => Some (panGesture_onFinalize s, [])
  | TapStart x => if tapToMove then tapGesture_onStart props x s
                  else Some (s, [])
  end.

(** A sequence of callbacks: the last state and every value notified, in
    order. *)
Fixpoint run (props : Slider.Props) (tapToMove : bool) (s : State)
    (events : list Event) : option (State * list Q) :=
  match events with
  | [] => Some (s, [])
  | e :: events' =>
      r <- step_event props tapToMove s e ;;
      r' <- run props tapToMove (fst r) events' ;;
      Some (fst r', snd r ++ snd r')
  end.

(** The callbacks that hand a value to [onValueChange]. *)
Definition notifies (tapToMove : bool) (e : Event) : bool :=
  match e with
  | PanUpdate _ => true
  | TapStart _ => tapToMove
  | _ => false
  end.

End SliderGestures.

(** ** JavaScript numbers: IEEE 754 binary64 *)

Module Double.

Definition prec : Z := 53.
Definition emax : Z := 1024.

(** A JavaScript number. *)
Definition double : Type := spec_float.

(** [+], [-], [*] and [/], rounded to nearest, ties to even. *)
Definition add : double -> double -> double := SFadd prec emax.
Definition sub : double -> double -> double := SFsub prec emax.
Definition mul : double -> double -> double := SFmul prec emax.
Definition quot : double -> double -> double := SFdiv prec emax.
Definition opp : double -> double := SFopp.

(** [<], [<=], [>], [>=] and [===]; all false on NaN. *)
Definition ltb : double -> double -> bool := SFltb.
Definition leb : double -> double -> bool := SFleb.
Definition gtb (a b : double) : bool := ltb b a.
Definition geb (a b : double) : bool := leb b a.
Definition eqb : double -> double -> bool := SFeqb.

Definition zero : double := S754_zero false.
Definition nan : double := S754_nan.

(** The number an integer literal denotes. *)
Definition of_Z (z : Z) : double := binary_normalize prec emax z 0 false.

Definition one : double := of_Z 1.

(** The number a decimal literal [n/d] denotes, for [n] and [d] below
    [2^53]: the double nearest to the quotient. *)
Definition decimal (n d : Z) : double := quot (of_Z n) (of_Z d).

Definition is_nan (x : double) : bool :=
  match x with
  | S754_nan => true
  | _ => false
  end.

(** Zero or finite: neither NaN nor an infinity. *)
Definition is_finite (x : double) : bool :=
  match x with
  | S754_zero _ | S754_finite _ _ _ => true
  | _ => false
  end.

(** The exact value of a finite number. *)
Definition to_Q (x : double) : option Q :=
  match x with
  | S754_zero _ => Some 0%Q
  | S754_finite s m (Zneg p) => Some (Qmake (cond_Zopp s (Zpos m)) (2 ^ p))
  | S754_finite s m e => Some (inject_Z (cond_Zopp s (Zpos m) * 2 ^ e))
  | _ => None
  end.

(** [a / b] of the source; [None] records a division by zero. *)
Definition div (a b : double) : option double :=
  if eqb b zero then None else Some (quot a b).

(** [Math.max] and [Math.min]: NaN if an argument is NaN, and [+0] larger
    than [-0]. *)
Definition Math_max (a b : double) : double :=
  if is_nan a || is_nan b then nan
  else if ltb a b then b
  else if ltb b a then a
  else match a with
       | S754_zero true => b
       | _ => a
       end.

Definition Math_min (a b : double) : double :=
  if is_nan a || is_nan b then nan
  else if ltb a b then a
  else if ltb b a then b
  else match a with
       | S754_zero false => b
       | _ => a
       end.

Definition Math_abs : double -> double := SFabs.

(** [Math.round]: the nearest integer, halves towards +infinity; a number
    with a non-negative exponent is an integer already, and a result of zero
    keeps the sign of the argument. *)
Definition Math_round (x : double) : double :=
  match x with
  | S754_finite s m (Zneg p) =>
      let n := ((2 * cond_Zopp s (Zpos m) + 2 ^ Zpos p)
                / 2 ^ (1 + Zpos p))%Z in
      binary_normalize prec emax n 0 s
  | _ => x
  end.

End Double.

(** ** lib/utils.ts on binary64 numbers *)

Module DoubleUtils.

Import Double.

(** The library's interpolation, as [interpolate] above, on binary64. *)
Definition interpolate (x : double) (input output : double * double)
    (type : Extrapolation) : option double :=
  let '(leftEdgeInput, rightEdgeInput) := input in
  let '(leftEdgeOutput, rightEdgeOutput) := output in
  if eqb (sub rightEdgeInput leftEdgeInput) zero then Some leftEdgeOutput
  else
    progress <- div (sub x leftEdgeInput) (sub rightEdgeInput leftEdgeInput) ;;
    let val :=
      add leftEdgeOutput (mul progress (sub rightEdgeOutput leftEdgeOutput)) in
    let coef := if geb rightEdgeOutput leftEdgeOutput then one else opp one in
    match type with
    | Extend => Some val
    | Clamp =>
        if ltb (mul coef val) (mul coef leftEdgeOutput)
        then Some leftEdgeOutput
        else if gtb (mul coef val) (mul coef rightEdgeOutput)
             then Some rightEdgeOutput
             else Some val
    end.

(** [clampPosition(position, min, max)]. *)
Definition clampPosition (position min max : double) : double :=
  Math_max min (Math_min max position).

(** [calculateSteppedValue(value, step, min, max)]. *)
Definition calculateSteppedValue (value step min max : double)
  : option double :=
  steppedValue <-
    (if gtb step zero
     then (q <- div value step ;; Some (mul (Math_round q) step))
     else Some value) ;;
  Some (Math_max min (Math_min max steppedValue)).

(** [positionToValue(position, trackWidth, min, max, step)]. *)
Definition positionToValue (position trackWidth min max step : double)
  : option double :=
  let clampedPosition := clampPosition position zero trackWidth in
  rawValue <-
    interpolate clampedPosition (zero, trackWidth) (min, max) Extend ;;
  calculateSteppedValue rawValue step min max.




End DoubleUtils.

(** ** slider.tsx on binary64 numbers *)

Module DoubleSlider.

Import Double.

Record Props : Type := mkProps {
  min : double;
  max : double;
  initialValue : double;
  step : double;
  width : double;
  thumbSize : double
}.

Definition trackWidth (props : Props) : double :=
  sub (width props) (thumbSize props).

(** The initial content of the [position] shared value. *)
Definition mount (props : Props) : option double :=
  DoubleUtils.interpolate (initialValue props) (min props, max props)
    (zero, trackWidth props) Clamp.

(** [updateValue(newPosition)]: the value handed to [onValueChange]. *)
Definition updateValue (props : Props) (newPosition : double)
  : option double :=
  DoubleUtils.positionToValue newPosition (trackWidth props) (min props)
    (max props) (step props).

End DoubleSlider.

(** ** range-slider.tsx on binary64 numbers *)

Module DoubleRangeSlider.

Import Double.

Record Props : Type := mkProps {
  min : double;
  max : double;
  initialMin : double;
  initialMax : double;
  step : double;
  width : double;
  thumbSize : double;
  tapToMove : bool
}.

Definition trackWidth (props : Props) : double :=
  sub (width props) (thumbSize props).

(** The shared values of a mounted range slider. *)
Record State : Type := mkState {
  leftPosition : double;
  rightPosition : double;
  startLeftPosition : double;
  startRightPosition : double;
  isLeftThumbActive : double;
  isRightThumbActive : double
}.

(** [withTiming(toValue)], at the value the animation ends on. *)
Definition withTiming (toValue : double) : double := toValue.

(** The gesture callbacks that reach the component. *)
Inductive Event : Type :=
| LeftPanStart
| LeftPanUpdate (translationX : double)
| LeftPanFinalize
| RightPanStart
| RightPanUpdate (translationX : double)
| RightPanFinalize
| TapStart (x : double).

(** [leftPanGesture]: [onStart], [onUpdate], [onFinalize]. *)
Definition leftPanGesture_onStart (s : State) : State :=
  mkState (leftPosition s) (rightPosition s) (leftPosition s)
    (startRightPosition s) (withTiming one) (isRightThumbActive s).

Definition leftPanGesture_onUpdate (props : Props) (translationX : double)
    (s : State) : State :=
  let newPosition := add (startLeftPosition s) translationX in
  mkState (Math_min newPosition (sub (rightPosition s) (thumbSize props)))
    (rightPosition s) (startLeftPosition s) (startRightPosition s)
    (isLeftThumbActive s) (isRightThumbActive s).

Definition leftPanGesture_onFinalize (s : State) : State :=
  mkState (leftPosition s) (rightPosition s) (startLeftPosition s)
    (startRightPosition s) (withTiming zero) (isRightThumbActive s).

(** [rightPanGesture]: [onStart], [onUpdate], [onFinalize]. *)
Definition rightPanGesture_onStart (s : State) : State :=
  mkState (leftPosition s) (rightPosition s) (startLeftPosition s)
    (rightPosition s) (isLeftThumbActive s) (withTiming one).

Definition rightPanGesture_onUpdate (props : Props) (translationX : double)
    (s : State) : State :=
  let newPosition := add (startRightPosition s) translationX in
  mkState (leftPosition s)
    (Math_max newPosition (add (leftPosition s) (thumbSize props)))
    (startLeftPosition s) (startRightPosition s)
    (isLeftThumbActive s) (isRightThumbActive s).

Definition rightPanGesture_onFinalize (s : State) : State :=
  mkState (leftPosition s) (rightPosition s) (startLeftPosition s)
    (startRightPosition s) (isLeftThumbActive s) (withTiming zero).

(** [tapGesture.onStart]. *)
Definition tapGesture_onStart (props : Props) (x : double) (s : State)
  : State :=
  let tapX := sub x (quot (thumbSize props) (of_Z 2)) in
  let clampedPosition :=
    DoubleUtils.clampPosition tapX zero (trackWidth props) in
  let distToLeft := Math_abs (sub clampedPosition (leftPosition s)) in
  let distToRight := Math_abs (sub clampedPosition (rightPosition s)) in
  if ltb distToLeft distToRight
  then mkState (withTiming clampedPosition) (rightPosition s)
         (startLeftPosition s) (startRightPosition s)
         (isLeftThumbActive s) (isRightThumbActive s)
  else mkState (leftPosition s) (withTiming clampedPosition)
         (startLeftPosition s) (startRightPosition s)
         (isLeftThumbActive s) (isRightThumbActive s).

(** One gesture callback; a tap is delivered only when [tapToMove] enables
    the gesture. *)
Definition step_event (props : Props) (s : State) (e : Event) : State :=
  match e with
  | LeftPanStart => leftPanGesture_onStart s
  | LeftPanUpdate translationX => leftPanGesture_onUpdate props translationX s
  | LeftPanFinalize => leftPanGesture_onFinalize s
  | RightPanStart => rightPanGesture_onStart s
  | RightPanUpdate translationX =>
      rightPanGesture_onUpdate props translationX s
  | RightPanFinalize => rightPanGesture_onFinalize s
  | TapStart x => if tapToMove props then tapGesture_onStart props x s else s
  end.

Definition run (props : Props) (s : State) (events : list Event) : State :=
  fold_left (step_event props) events s.

Definition is_pan_update (e : Event) : bool :=
  match e with
  | LeftPanUpdate _ | RightPanUpdate _ => true
  | _ => false
  end.

(** What a pan update guarantees for the thumb it moves: the thumb is at or
    beyond the bound computed from the other thumb, unless its position is
    NaN. *)
Definition moved_thumb_bounded (props : Props) (e : Event) (s : State)
  : Prop :=
  match e with
  | LeftPanUpdate _ =>
      is_nan (leftPosition s) = true \/
      leb (leftPosition s) (sub (rightPosition s) (thumbSize props)) = true
  | RightPanUpdate _ =>
      is_nan (rightPosition s) = true \/
      geb (rightPosition s) (add (leftPosition s) (thumbSize props)) = true
  | _ => True
  end.

(** [updateRangeValues]: the pair handed to [onRangeChange]. *)
Definition updateRangeValues (props : Props) (s : State)
  : option (double * double) :=
  leftValue <- DoubleUtils.interpolate (leftPosition s)
                 (zero, trackWidth props) (min props, max props) Clamp ;;
  rightValue <- DoubleUtils.interpolate (rightPosition s)
                  (zero, trackWidth props) (min props, max props) Clamp ;;
  finalLeftValue <-
    DoubleUtils.calculateSteppedValue leftValue (step props) (min props)
      (max props) ;;
  finalRightValue <-
    DoubleUtils.calculateSteppedValue rightValue (step props) (min props)
      (max props) ;;
  Some (finalLeftValue, finalRightValue).

End DoubleRangeSlider.

(** * Properties *)

(** ** Numbers *)

Lemma Qle_bool_cases (a b : Q) :
  (Qle_bool a b = true /\ a <= b) \/ (Qle_bool a b = false /\ b < a).
Proof.
  destruct (Qle_bool a b) eqn:E.
  - left. split; [reflexivity | now apply Qle_bool_iff].
  - right. split; [reflexivity |].
    apply Qnot_le_lt. intro H. apply Qle_bool_iff in H. congruence.
Qed.

Ltac case_le a b :=
  let E := fresh "E" in
  let H := fresh "H" in
  destruct (Qle_bool_cases a b) as [[E H] | [E H]]; rewrite ?E in *.

Lemma ltb_true (a b : Q) : ltb a b = true <-> a < b.
Proof.
  unfold ltb. case_le b a; simpl; split; intro; try discriminate; try lra; auto.
Qed.

Lemma ltb_false (a b : Q) : ltb a b = false <-> b <= a.
Proof.
  unfold ltb. case_le b a; simpl; split; intro; try discriminate; try lra; auto.
Qed.

Lemma Math_max_cases (a b : Q) :
  (a <= b /\ Math_max a b = b) \/ (b < a /\ Math_max a b = a).
Proof. unfold Math_max. case_le a b; auto. Qed.

Lemma Math_min_cases (a b : Q) :
  (a <= b /\ Math_min a b = a) \/ (b < a /\ Math_min a b = b).
Proof. unfold Math_min. case_le a b; auto. Qed.

Ltac case_max a b :=
  let H := fresh "H" in
  let E := fresh "E" in
  destruct (Math_max_cases a b) as [[H E] | [H E]]; rewrite ?E in *.

Ltac case_min a b :=
  let H := fresh "H" in
  let E := fresh "E" in
  destruct (Math_min_cases a b) as [[H E] | [H E]]; rewrite ?E in *.


Lemma clampPosition_inside (position lo hi : Q) :
  lo <= position <= hi -> clampPosition position lo hi == position.
Proof.
  intros [H1 H2]. unfold clampPosition.
  case_min hi position; [case_max lo hi | case_max lo position]; lra.
Qed.


Lemma div_defined (a b : Q) : ~ b == 0 -> div a b = Some (a / b).
Proof.
  intro Hb. unfold div.
  destruct (Qeq_bool b 0) eqn:E; [| reflexivity].
  apply Qeq_bool_iff in E. contradiction.
Qed.

Lemma Qeq_bool_false (a b : Q) : Qeq_bool a b = false -> ~ a == b.
Proof. intros E H. apply Qeq_bool_iff in H. congruence. Qed.


(** ** Interpolation *)




Lemma interpolate_total (x : Q) (input output : Q * Q)
    (type : Extrapolation) :
  exists v, interpolate x input output type = Some v.
Proof.
  destruct input as [li ri], output as [lo ro]. unfold interpolate.
  destruct (Qeq_bool (ri - li) 0) eqn:E; [eauto |].
  apply Qeq_bool_false in E. rewrite (div_defined _ _ E). cbn [bind].
  destruct type; [eauto |].
  destruct (ltb _ _); [eauto |]. destruct (gtb _ _); eauto.
Qed.

(** ** Quantisation *)

Lemma calculateSteppedValue_continuous (value step min max : Q) :
  step <= 0 ->
  calculateSteppedValue value step min max
  = Some (Math_max min (Math_min max value)).
Proof.
  intro Hs. unfold calculateSteppedValue, gtb.
  apply ltb_false in Hs. rewrite Hs. reflexivity.
Qed.

Lemma calculateSteppedValue_stepped (value step min max : Q) :
  0 < step ->
  calculateSteppedValue value step min max
  = Some (Math_max min (Math_min max (Math_round (value / step) * step))).
Proof.
  intro Hs. unfold calculateSteppedValue, gtb.
  assert (Hne : ~ step == 0) by lra.
  apply ltb_true in Hs. rewrite Hs, (div_defined _ _ Hne). reflexivity.
Qed.

Lemma calculateSteppedValue_clamped (value step min max : Q) :
  exists steppedValue,
    calculateSteppedValue value step min max
    = Some (Math_max min (Math_min max steppedValue)).
Proof.
  destruct (Qlt_le_dec 0 step) as [Hs | Hs].
  - rewrite calculateSteppedValue_stepped by assumption. eauto.
  - rewrite calculateSteppedValue_continuous by assumption. eauto.
Qed.


Lemma clamp_inside (x lo hi : Q) :
  lo <= x <= hi -> Math_max lo (Math_min hi x) == x.
Proof. intro H. apply (clampPosition_inside x lo hi H). Qed.


(** [positionToValue] always yields a number. *)
Lemma positionToValue_total (position trackWidth min max step : Q) :
  exists v, positionToValue position trackWidth min max step = Some v.
Proof.
  unfold positionToValue.
  destruct (interpolate_total (clampPosition position 0 trackWidth)
              (0, trackWidth) (min, max) Extend) as [raw Hraw].
  rewrite Hraw. cbn [bind].
  destruct (calculateSteppedValue_clamped raw step min max) as [sv Hsv].
  eauto.
Qed.


(** The numeric primitives respect equality of rationals. *)
#[global] Instance Math_max_compat : Proper (Qeq ==> Qeq ==> Qeq) Math_max.
Proof.
  intros a a' Ha b b' Hb.
  case_max a b; case_max a' b'; lra.
Qed.

#[global] Instance Math_min_compat : Proper (Qeq ==> Qeq ==> Qeq) Math_min.
Proof.
  intros a a' Ha b b' Hb.
  case_min a b; case_min a' b'; lra.
Qed.

#[global] Instance Math_round_compat : Proper (Qeq ==> Qeq) Math_round.
Proof.
  intros a a' Ha. unfold Math_round.
  assert (H : a + (1 # 2) == a' + (1 # 2)) by lra.
  now rewrite (Qfloor_comp _ _ H).
Qed.

Lemma ltb_compat (a a' b b' : Q) : a == a' -> b == b' -> ltb a b = ltb a' b'.
Proof.
  intros Ha Hb.
  destruct (ltb a b) eqn:E, (ltb a' b') eqn:E'; try reflexivity.
  - apply ltb_true in E. apply ltb_false in E'. lra.
  - apply ltb_false in E. apply ltb_true in E'. lra.
Qed.

(** ** The value mapper *)


(** The default slider ([min = 0], [max = 100], [trackWidth = 280]) with
    [step = 10]: the position of the raw value [53] is reported as [50], the
    position of [55] as [60], and a position beyond the track as [100]. *)
Example positionToValue_raw_53 :
  positionToValue (53 * 280 / 100) 280 0 100 10 = Some 50.
Proof. reflexivity. Qed.

Example positionToValue_raw_55 :
  positionToValue (55 * 280 / 100) 280 0 100 10 = Some 60.
Proof. reflexivity. Qed.

Example positionToValue_beyond_track :
  positionToValue 1000 280 0 100 10 = Some 100.
Proof. reflexivity. Qed.






(** ** The range slider *)

Section RangeSliderProperties.

Import RangeSlider.

Lemma interpolate_compat (x y : Q) (input output : Q * Q)
    (type : Extrapolation) (v w : Q) :
  x == y ->
  interpolate x input output type = Some v ->
  interpolate y input output type = Some w ->
  v == w.
Proof.
  intro Hxy. destruct input as [li ri], output as [lo ro].
  unfold interpolate.
  destruct (Qeq_bool (ri - li) 0) eqn:E.
  { intros [= <-] [= <-]. reflexivity. }
  apply Qeq_bool_false in E. rewrite !(div_defined _ _ E). cbn [bind].
  set (c := if geb ro lo then 1 else - (1)).
  set (vx := lo + (x - li) / (ri - li) * (ro - lo)).
  set (vy := lo + (y - li) / (ri - li) * (ro - lo)).
  assert (Hv : vx == vy) by (unfold vx, vy; now rewrite Hxy).
  assert (Hc : c * vx == c * vy) by now rewrite Hv.
  destruct type.
  { intros [= <-] [= <-]. exact Hv. }
  unfold gtb.
  rewrite (ltb_compat (c * vx) (c * vy) (c * lo) (c * lo) Hc (Qeq_refl _)).
  rewrite (ltb_compat (c * ro) (c * ro) (c * vx) (c * vy) (Qeq_refl _) Hc).
  destruct (ltb (c * vy) (c * lo)).
  { intros [= <-] [= <-]. reflexivity. }
  destruct (ltb (c * ro) (c * vy)); intros [= <-] [= <-];
    [reflexivity | exact Hv].
Qed.

Lemma mount_total (props : Props) :
  exists left right,
    interpolate (initialMin props) (min props, max props)
      (0, trackWidth props) Clamp = Some left /\
    interpolate (initialMax props) (min props, max props)
      (0, trackWidth props) Clamp = Some right /\
    mount props = Some (mkState left right 0 0 0 0).
Proof.
  unfold mount.
  destruct (interpolate_total (initialMin props) (min props, max props)
              (0, trackWidth props) Clamp) as [l Hl].
  destruct (interpolate_total (initialMax props) (min props, max props)
              (0, trackWidth props) Clamp) as [r Hr].
  exists l, r. rewrite Hl, Hr. repeat split.
Qed.

(** C10: at mount the two positions are two independent clamped
    interpolations of [initialMin] and [initialMax], with no adjustment
    between them; when [initialMin] and [initialMax] coincide and the thumb
    has a size, the mounted thumbs are [0] apart, less than [thumbSize]; the
    configuration [min = 0], [max = 100], [initialMin = initialMax = 50],
    [width = 300], [thumbSize = 20] is such a case. *)
Theorem mount_positions_independent :
  (forall props, exists left right,
      interpolate (initialMin props) (min props, max props)
        (0, trackWidth props) Clamp = Some left /\
      interpolate (initialMax props) (min props, max props)
        (0, trackWidth props) Clamp = Some right /\
      mount props = Some (mkState left right 0 0 0 0)) /\
  (forall props,
      initialMin props == initialMax props -> 0 < thumbSize props ->
      exists s, mount props = Some s /\
                rightPosition s - leftPosition s == 0 /\
                rightPosition s - leftPosition s < thumbSize props) /\
  (exists props s,
      min props <= initialMin props /\
      initialMin props <= initialMax props /\
      initialMax props <= max props /\
      0 < trackWidth props /\ 0 < thumbSize props /\
      mount props = Some s /\
      rightPosition s - leftPosition s == 0 /\
      rightPosition s - leftPosition s < thumbSize props).
Proof.
  assert (Hsame : forall props,
             initialMin props == initialMax props -> 0 < thumbSize props ->
             exists s, mount props = Some s /\
                       rightPosition s - leftPosition s == 0 /\
                       rightPosition s - leftPosition s < thumbSize props).
  { intros props He Ht.
    destruct (mount_total props) as [l [r [Hl [Hr Hm]]]].
    eexists. split; [exact Hm |]. cbn.
    pose proof (interpolate_compat _ _ _ _ _ _ _ He Hl Hr) as Hlr.
    split; lra. }
  split; [exact mount_total |]. split; [exact Hsame |].
  exists (mkProps 0 100 50 50 1 300 20 true).
  destruct (Hsame (mkProps 0 100 50 50 1 300 20 true)) as [s Hs];
    [reflexivity | reflexivity |].
  exists s. unfold trackWidth. cbn.
  repeat (split; [lra |]). exact Hs.
Qed.

Lemma mount_positions_independent_witness :
  exists s, mount (mkProps 0 100 50 50 1 300 20 true) = Some s /\
            rightPosition s - leftPosition s == 0 /\
            rightPosition s - leftPosition s < 20.
Proof.
  apply (proj1 (proj2 mount_positions_independent)
           (mkProps 0 100 50 50 1 300 20 true)); reflexivity.
Defined.

Lemma run_snoc (props : Props) (s : State) (events : list Event) (e : Event) :
  run props s (events ++ [e]) = step_event props (run props s events) e.
Proof. unfold run. now rewrite fold_left_app. Qed.

End RangeSliderProperties.

Section TapProperties.

Import RangeSlider.

Lemma not_Qle_computed (a b : Q) : Qle_bool a b = false -> ~ a <= b.
Proof. intros E H. apply Qle_bool_iff in H. congruence. Qed.




(** C2 fails on the code: a tap assigns the target without clamping it
    against the other thumb.  With [initialMax = 10] and every other prop at
    its default the component mounts with the thumbs at [0] and [28], which
    satisfies the range invariant; a tap at [x = 25] moves the right thumb to
    [15], a reachable state that breaks it.  With all props at their defaults
    four taps do the same. *)
Theorem tap_breaks_range_invariant :
  (let props := mkProps 0 100 0 10 1 300 20 true in
   exists s,
     mount props = Some s /\
     leftPosition s == 0 /\ rightPosition s == 28 /\
     non_crossing props s /\
     reachable props (step_event props s (TapStart 25)) /\
     leftPosition (step_event props s (TapStart 25)) == 0 /\
     rightPosition (step_event props s (TapStart 25)) == 15 /\
     ~ non_crossing props (step_event props s (TapStart 25))) /\
  (exists s,
     mount defaultProps = Some s /\
     non_crossing defaultProps s /\
     let taps := [TapStart 151; TapStart 81; TapStart 46; TapStart 29] in
     leftPosition (run defaultProps s taps) == 0 /\
     rightPosition (run defaultProps s taps) == 19 /\
     ~ non_crossing defaultProps (run defaultProps s taps)).
Proof.
  split.
  - cbv zeta. eexists. split; [reflexivity |].
    split; [reflexivity |]. split; [reflexivity |].
    split; [apply Qle_bool_iff; reflexivity |].
    split; [apply reachable_step, reachable_mount; reflexivity |].
    split; [reflexivity |]. split; [reflexivity |].
    apply not_Qle_computed. reflexivity.
  - eexists. split; [reflexivity |].
    split; [apply Qle_bool_iff; reflexivity |].
    cbv zeta. split; [reflexivity |]. split; [reflexivity |].
    apply not_Qle_computed. reflexivity.
Qed.

End TapProperties.

(** ** The theme resolver *)

(** C9: every colour slot is resolved on its own, to the override when there
    is one and to the theme table entry otherwise; with the dark theme and no
    override the result is the dark table, and with [thumbColor] alone
    overridden it is the dark table with that slot replaced. *)
Theorem useThemeColors_resolution :
  (forall theme customColors,
      trackColor (useThemeColors theme customColors)
      = match customTrackColor customColors with
        | Some c => c
        | None => trackColor (THEME_COLORS theme)
        end /\
      activeTrackColor (useThemeColors theme customColors)
      = match customActiveTrackColor customColors with
        | Some c => c
        | None => activeTrackColor (THEME_COLORS theme)
        end /\
      thumbColor (useThemeColors theme customColors)
      = match customThumbColor customColors with
        | Some c => c
        | None => thumbColor (THEME_COLORS theme)
        end /\
      thumbBorderColor (useThemeColors theme customColors)
      = match customThumbBorderColor customColors with
        | Some c => c
        | None => thumbBorderColor (THEME_COLORS theme)
        end /\
      thumbFocusRingColor (useThemeColors theme customColors)
      = match customThumbFocusRingColor customColors with
        | Some c => c
        | None => thumbFocusRingColor (THEME_COLORS theme)
        end) /\
  useThemeColors dark noCustomColors = THEME_COLORS dark /\
  useThemeColors dark noCustomColors
  = mkColors "#262626" "#E5E5E5" "#0A0A0A" "#E5E5E5" "#3F3F3F" /\
  (forall c,
      useThemeColors dark (onlyThumbColor c)
      = mkColors "#262626" "#E5E5E5" c "#E5E5E5" "#3F3F3F").
Proof.
  split; [| repeat split].
  intros theme [t a th b f]. repeat split.
Qed.

(** * Further properties of the value mapper *)






Lemma calculateSteppedValue_compat (value value' step min max v v' : Q) :
  value == value' ->
  calculateSteppedValue value step min max = Some v ->
  calculateSteppedValue value' step min max = Some v' ->
  v == v'.
Proof.
  intro He. destruct (Qlt_le_dec 0 step) as [Hs | Hs].
  - rewrite !calculateSteppedValue_stepped by assumption.
    intros [= <-] [= <-]. now rewrite He.
  - rewrite !calculateSteppedValue_continuous by assumption.
    intros [= <-] [= <-]. now rewrite He.
Qed.









(** * Further properties of the interpolation with ["clamp"] *)




(** * Further properties of the single-thumb slider *)

Section SliderGesturesProperties.

Import SliderGestures.

Variable props : Slider.Props.
Variable tapToMove : bool.

Let tw := Slider.trackWidth props.

Lemma updateValue_total (p : Q) : exists v, Slider.updateValue props p = Some v.
Proof. apply positionToValue_total. Qed.

(** What one callback does to the position and what it notifies. *)
Lemma step_event_cases (s : State) (e : Event) :
  exists s' notes,
    step_event props tapToMove s e = Some (s', notes) /\
    startPosition s'
    = match e with PanStart => position s | _ => startPosition s end /\
    List.length notes = (if notifies tapToMove e then 1 else 0)%nat /\
    (forall v, In v notes -> exists p, Slider.updateValue props p = Some v) /\
    match e with
    | PanStart | PanFinalize => position s' = position s
    | PanUpdate t =>
        position s' = clampPosition (startPosition s + t) 0 tw
    | TapStart x =>
        position s'
        = if tapToMove
          then clampPosition (x - Slider.thumbSize props / 2) 0 tw
          else position s
    end.
Proof.
  destruct e as [| t | | x]; cbn.
  - do 2 eexists. repeat split. intros v [].
  - unfold panGesture_onUpdate.
    destruct (updateValue_total
                (clampPosition (startPosition s + t) 0
                   (Slider.trackWidth props))) as [v Hv].
    rewrite Hv. cbn. do 2 eexists. repeat split.
    intros v' [<- | []]. eauto.
  - do 2 eexists. repeat split. intros v [].
  - destruct tapToMove.
    + unfold tapGesture_onStart.
      destruct (updateValue_total
                  (clampPosition (x - Slider.thumbSize props / 2) 0
                     (Slider.trackWidth props))) as [v Hv].
      rewrite Hv. cbn. do 2 eexists. repeat split.
      intros v' [<- | []]. eauto.
    + do 2 eexists. repeat split. intros v [].
Qed.


Lemma run_total (events : list Event) :
  forall s, exists s' notes, run props tapToMove s events = Some (s', notes).
Proof.
  induction events as [| e events IH]; intro s; cbn.
  - eauto.
  - destruct (step_event_cases s e) as [s1 [n1 [H1 _]]].
    rewrite H1. cbn.
    destruct (IH s1) as [s2 [n2 H2]]. rewrite H2. cbn. eauto.
Qed.

Lemma run_cons (s s1 s2 : State) (e : Event) (events : list Event)
    (n1 n2 : list Q) :
  step_event props tapToMove s e = Some (s1, n1) ->
  run props tapToMove s1 events = Some (s2, n2) ->
  run props tapToMove s (e :: events) = Some (s2, n1 ++ n2).
Proof. intros H1 H2. cbn. rewrite H1. cbn. rewrite H2. reflexivity. Qed.

Lemma run_cons_inv (s s2 : State) (e : Event) (events : list Event)
    (notes : list Q) :
  run props tapToMove s (e :: events) = Some (s2, notes) ->
  exists s1 n1 n2,
    step_event props tapToMove s e = Some (s1, n1) /\
    run props tapToMove s1 events = Some (s2, n2) /\
    notes = n1 ++ n2.
Proof.
  cbn. destruct (step_event props tapToMove s e) as [[s1 n1] |]; cbn;
    [| discriminate].
  destruct (run props tapToMove s1 events) as [[s2' n2] |] eqn:E2; cbn;
    [| discriminate].
  intros [= <- <-]. exists s1, n1, n2. repeat split. exact E2.
Qed.


Lemma run_notes_count (events : list Event) :
  forall s s' notes,
    run props tapToMove s events = Some (s', notes) ->
    List.length notes = List.length (filter (notifies tapToMove) events).
Proof.
  induction events as [| e events IH]; intros s s' notes Hrun.
  - cbn in Hrun. injection Hrun as <- <-. reflexivity.
  - destruct (run_cons_inv _ _ _ _ _ Hrun) as [s1 [n1 [n2 [H1 [H2 ->]]]]].
    destruct (step_event_cases s e) as [s3 [n3 [H3 [_ [Hlen _]]]]].
    rewrite H1 in H3. injection H3 as <- <-.
    rewrite length_app, Hlen, (IH _ _ _ H2). cbn [filter].
    destruct (notifies tapToMove e); reflexivity.
Qed.

End SliderGesturesProperties.

Section SliderRuns.

Import SliderGestures.

Lemma pan_updates_keep_start (props : Slider.Props) (tapToMove : bool)
    (ts : list Q) :
  forall s, exists s' notes,
    run props tapToMove s (map PanUpdate ts) = Some (s', notes) /\
    startPosition s' = startPosition s.
Proof.
  induction ts as [| t ts IH]; intro s; cbn [map].
  - exists s, []. split; reflexivity.
  - destruct (step_event_cases props tapToMove s (PanUpdate t))
      as [s1 [n1 [H1 [Hstart _]]]].
    destruct (IH s1) as [s2 [n2 [H2 Hstart2]]].
    exists s2, (n1 ++ n2). split.
    + exact (run_cons props tapToMove _ _ _ _ _ _ _ H1 H2).
    + congruence.
Qed.

Lemma run_app (props : Slider.Props) (tapToMove : bool)
    (events1 events2 : list Event) :
  forall s s1 s2 n1 n2,
    run props tapToMove s events1 = Some (s1, n1) ->
    run props tapToMove s1 events2 = Some (s2, n2) ->
    run props tapToMove s (events1 ++ events2) = Some (s2, n1 ++ n2).
Proof.
  induction events1 as [| e events1 IH]; intros s s1 s2 n1 n2 H1 H2.
  - cbn in H1. injection H1 as <- <-. exact H2.
  - destruct (run_cons_inv _ _ _ _ _ _ _ H1) as [s' [m1 [m2 [Hs [Hr ->]]]]].
    rewrite <- app_comm_cons, <- app_assoc.
    apply (run_cons props tapToMove _ _ _ _ _ _ _ Hs).
    exact (IH _ _ _ _ _ Hr H2).
Qed.

End SliderRuns.



(** X11: a single-thumb slider notifies exactly once per pan update and per
    tap that [tapToMove] lets through, and never on pan start, pan end or a
    disabled tap. *)
Theorem slider_notifies_once_per_move
    (props : Slider.Props) (tapToMove : bool) (s : SliderGestures.State)
    (events : list SliderGestures.Event) :
  exists s' notes,
    SliderGestures.run props tapToMove s events = Some (s', notes) /\
    List.length notes
    = List.length (filter (SliderGestures.notifies tapToMove) events).
Proof.
  destruct (run_total props tapToMove events s) as [s' [notes Hrun]].
  exists s', notes. split; [exact Hrun |].
  exact (run_notes_count props tapToMove events _ _ _ Hrun).
Qed.

(** X12: pan translations are measured from the position at pan start: after
    a pan start and any number of updates, the position is the start position
    plus the last translation, clamped to the track; coming back to a zero
    translation brings a thumb that was on the track back to where it
    was. *)
Theorem slider_pan_is_relative_to_start
    (props : Slider.Props) (tapToMove : bool) (s : SliderGestures.State)
    (ts : list Q) (t : Q) :
  exists s' notes,
    SliderGestures.run props tapToMove s
      (SliderGestures.PanStart
       :: map SliderGestures.PanUpdate ts ++ [SliderGestures.PanUpdate t])
    = Some (s', notes) /\
    SliderGestures.position s'
    = clampPosition (SliderGestures.position s + t) 0
        (Slider.trackWidth props) /\
    (0 <= SliderGestures.position s <= Slider.trackWidth props ->
     t == 0 ->
     SliderGestures.position s' == SliderGestures.position s).
Proof.
  destruct (pan_updates_keep_start props tapToMove ts
              (SliderGestures.panGesture_onStart s)) as [s1 [n1 [H1 Hst]]].
  destruct (step_event_cases props tapToMove s1 (SliderGestures.PanUpdate t))
    as [s2 [n2 [H2 [_ [_ [_ Hpos]]]]]].
  exists s2, ([] ++ n1 ++ n2 ++ []).
  assert (Hp : SliderGestures.position s2
               = clampPosition (SliderGestures.position s + t) 0
                   (Slider.trackWidth props)).
  { rewrite Hpos, Hst. reflexivity. }
  split; [| split; [exact Hp |]].
  - apply (run_cons props tapToMove s (SliderGestures.panGesture_onStart s));
      [reflexivity |].
    apply (run_app props tapToMove _ _ _ s1); [exact H1 |].
    apply (run_cons props tapToMove s1 s2 s2); [exact H2 | reflexivity].
  - intros Hin Ht. rewrite Hp.
    assert (He : SliderGestures.position s + t == SliderGestures.position s)
      by lra.
    unfold clampPosition. rewrite He. now apply clamp_inside.
Qed.

Lemma slider_pan_is_relative_to_start_witness :
  exists s' notes,
    SliderGestures.run (Slider.mkProps 0 100 50 10 300 20) true
      (SliderGestures.mkState 140 0 0)
      (SliderGestures.PanStart
       :: map SliderGestures.PanUpdate [60; 500]
          ++ [SliderGestures.PanUpdate 0])
    = Some (s', notes) /\
    SliderGestures.position s' = clampPosition (140 + 0) 0 (300 - 20) /\
    SliderGestures.position s' == 140.
Proof.
  destruct (slider_pan_is_relative_to_start
              (Slider.mkProps 0 100 50 10 300 20) true
              (SliderGestures.mkState 140 0 0) [60; 500] 0)
    as [s' [notes [Hrun [Hpos Hback]]]].
  exists s', notes. split; [exact Hrun |]. split; [exact Hpos |].
  apply Hback.
  - unfold Slider.trackWidth. cbn. lra.
  - reflexivity.
Defined.

(** * Further properties of the range slider *)

Section RangeSliderOrder.

Import RangeSlider.

Variable props : Props.

(** Left-pan updates write [leftPosition] only. *)
Lemma left_updates_frame (ts : list Q) :
  forall s,
    startLeftPosition (run props s (map LeftPanUpdate ts))
    = startLeftPosition s /\
    rightPosition (run props s (map LeftPanUpdate ts)) = rightPosition s.
Proof.
  induction ts as [| t ts IH]; intro s; cbn.
  - split; reflexivity.
  - destruct (IH (leftPanGesture_onUpdate props t s)) as [H1 H2].
    unfold run in H1, H2. rewrite H1, H2. split; reflexivity.
Qed.

(** Right-pan updates write [rightPosition] only. *)
Lemma right_updates_frame (ts : list Q) :
  forall s,
    startRightPosition (run props s (map RightPanUpdate ts))
    = startRightPosition s /\
    leftPosition (run props s (map RightPanUpdate ts)) = leftPosition s.
Proof.
  induction ts as [| t ts IH]; intro s; cbn.
  - split; reflexivity.
  - destruct (IH (rightPanGesture_onUpdate props t s)) as [H1 H2].
    unfold run in H1, H2. rewrite H1, H2. split; reflexivity.
Qed.


End RangeSliderOrder.

Section RangeSliderExtras.

Import RangeSlider.








(** X23: pan translations of the range slider are measured from the thumb's
    position at pan start and bounded by the other thumb only: after a
    left-pan start and any number of left-pan updates the left thumb is at
    [min(left + t, right - thumbSize)] for the last translation [t] and the
    right thumb has not moved; symmetrically for the right pan. *)
Theorem range_pan_is_relative_to_start
    (props : Props) (s : State) (ts : list Q) (t : Q) :
  (let s' := run props s
               (LeftPanStart :: map LeftPanUpdate ts ++ [LeftPanUpdate t]) in
   leftPosition s'
   = Math_min (leftPosition s + t) (rightPosition s - thumbSize props) /\
   rightPosition s' = rightPosition s) /\
  (let s' := run props s
               (RightPanStart :: map RightPanUpdate ts
                ++ [RightPanUpdate t]) in
   rightPosition s'
   = Math_max (rightPosition s + t) (leftPosition s + thumbSize props) /\
   leftPosition s' = leftPosition s).
Proof.
  split; cbv zeta; rewrite app_comm_cons, run_snoc; cbn [step_event].
  - destruct (left_updates_frame props ts (leftPanGesture_onStart s))
      as [H1 H2].
    change (run props s (LeftPanStart :: map LeftPanUpdate ts))
      with (run props (leftPanGesture_onStart s) (map LeftPanUpdate ts)).
    unfold leftPanGesture_onUpdate. cbn. rewrite H1, H2. split; reflexivity.
  - destruct (right_updates_frame props ts (rightPanGesture_onStart s))
      as [H1 H2].
    change (run props s (RightPanStart :: map RightPanUpdate ts))
      with (run props (rightPanGesture_onStart s) (map RightPanUpdate ts)).
    unfold rightPanGesture_onUpdate. cbn. rewrite H1, H2. split; reflexivity.
Qed.

End RangeSliderExtras.

(** * Further properties of the theme resolver *)

(** X24: the light and the dark theme resolve to the same colours exactly
    when all five slots are overridden: the two tables differ in every
    slot. *)
Theorem useThemeColors_theme_independent_iff_all_overridden
    (customColors : CustomColors) :
  useThemeColors light customColors = useThemeColors dark customColors
  <-> (customTrackColor customColors <> None /\
       customActiveTrackColor customColors <> None /\
       customThumbColor customColors <> None /\
       customThumbBorderColor customColors <> None /\
       customThumbFocusRingColor customColors <> None).
Proof.
  destruct customColors as [[t |] [a |] [th |] [b |] [f |]];
    unfold useThemeColors; cbn; split;
    try (intro H; discriminate H);
    try (intros [H1 [H2 [H3 [H4 H5]]]]; congruence);
    try (intros _; repeat split; discriminate).
Qed.

(** * Properties on binary64 numbers *)

Section DoubleOrder.

Import Double.

(** ** Comparisons *)

Lemma SFcompare_antisym (a b : double) (c : comparison) :
  SFcompare a b = Some c -> SFcompare b a = Some (CompOpp c).
Proof.
  destruct a as [sa | sa | | sa ma ea], b as [sb | sb | | sb mb eb];
    cbn; try discriminate;
    try (intros [= <-]; reflexivity);
    try (destruct sa; intros [= <-]; reflexivity);
    try (destruct sb; intros [= <-]; reflexivity);
    try (destruct sa, sb; intros [= <-]; reflexivity).
  intros [= <-]. f_equal.
  rewrite (Z.compare_antisym ea eb).
  change (PosDef.Pos.compare_cont Eq mb ma) with (Pos.compare_cont Eq mb ma).
  change (PosDef.Pos.compare_cont Eq ma mb) with (Pos.compare_cont Eq ma mb).
  pose proof (Pos.compare_cont_antisym ma mb Eq) as Hm. cbn [CompOpp] in Hm.
  rewrite <- Hm.
  destruct sa, sb; try reflexivity;
    destruct (ea ?= eb)%Z; cbn [CompOpp]; try reflexivity.
Qed.

Lemma SFcompare_refl (a : double) :
  is_nan a = false -> SFcompare a a = Some Eq.
Proof.
  destruct a as [s | s | | s m e]; cbn; try discriminate; intros _;
    try (destruct s; reflexivity).
  rewrite Z.compare_refl, Pos.compare_cont_refl. destruct s; reflexivity.
Qed.

Lemma SFcompare_defined (a b : double) :
  is_nan a = false -> is_nan b = false -> exists c, SFcompare a b = Some c.
Proof.
  destruct a, b; cbn; try discriminate; intros _ _; eauto.
Qed.

Lemma SFcompare_not_nan (a b : double) (c : comparison) :
  SFcompare a b = Some c -> is_nan a = false /\ is_nan b = false.
Proof. destruct a, b; cbn; try discriminate; intros _; split; reflexivity. Qed.

Lemma leb_not_nan (a b : double) :
  leb a b = true -> is_nan a = false /\ is_nan b = false.
Proof.
  unfold leb, SFleb. destruct (SFcompare a b) as [c |] eqn:E;
    [| discriminate].
  intros _. exact (SFcompare_not_nan _ _ _ E).
Qed.

Lemma ltb_not_nan (a b : double) :
  ltb a b = true -> is_nan a = false /\ is_nan b = false.
Proof.
  unfold ltb, SFltb. destruct (SFcompare a b) as [c |] eqn:E;
    [| discriminate].
  intros _. exact (SFcompare_not_nan _ _ _ E).
Qed.

Lemma leb_refl (a : double) : is_nan a = false -> leb a a = true.
Proof. intro H. unfold leb, SFleb. now rewrite (SFcompare_refl a H). Qed.

(** A number equal to a zero is a zero. *)
Lemma SFcompare_Eq_zero (a : double) (s : bool) :
  SFcompare a (S754_zero s) = Some Eq -> exists s', a = S754_zero s'.
Proof.
  destruct a as [sa | sa | | sa ma ea]; cbn; try discriminate.
  - eauto.
  - destruct sa; discriminate.
  - destruct sa; discriminate.
Qed.

(** Equal numbers are the same number, or two zeros. *)
Lemma eqb_cases (a b : double) :
  eqb a b = true ->
  (a = b /\ is_nan a = false)
  \/ (exists s s', a = S754_zero s /\ b = S754_zero s').
Proof.
  unfold eqb, SFeqb.
  destruct a as [sa | sa | | sa ma ea], b as [sb | sb | | sb mb eb];
    cbn; try discriminate;
    try (destruct sa; discriminate); try (destruct sb; discriminate).
  - intros _. right. eauto.
  - destruct sa, sb; try discriminate; intros _; left; split; reflexivity.
  - destruct sa, sb; try discriminate;
      destruct (ea ?= eb)%Z eqn:Ee; try discriminate;
      apply Z.compare_eq in Ee; subst eb;
      destruct (Pos.compare_cont Eq ma mb) eqn:Em; try discriminate;
      apply Pos.compare_eq in Em; subst mb;
      intros _; left; split; reflexivity.
Qed.

(** A positive step is not zero. *)
Lemma gtb_zero_not_eqb (step : double) :
  gtb step zero = true -> eqb step zero = false.
Proof.
  unfold gtb, ltb, eqb, SFltb, SFeqb, zero.
  destruct step as [s | s | | s m e]; cbn; try discriminate;
    destruct s; try discriminate; reflexivity.
Qed.

(** ** [Math.max] and [Math.min] *)

Lemma Math_max_nan_l (b : double) : Math_max nan b = nan.
Proof. reflexivity. Qed.

Lemma Math_max_nan_r (a : double) : Math_max a nan = nan.
Proof. unfold Math_max. cbn. now rewrite orb_true_r. Qed.

Lemma Math_min_nan_r (a : double) : Math_min a nan = nan.
Proof. unfold Math_min. cbn. now rewrite orb_true_r. Qed.

Lemma Math_max_spec (a b : double) :
  is_nan a = false -> is_nan b = false ->
  leb a (Math_max a b) = true /\ leb b (Math_max a b) = true /\
  (Math_max a b = a \/ Math_max a b = b).
Proof.
  intros Ha Hb.
  destruct (SFcompare_defined a b Ha Hb) as [c Hc].
  pose proof (SFcompare_antisym a b c Hc) as Hc'.
  pose proof (leb_refl a Ha) as Hra. pose proof (leb_refl b Hb) as Hrb.
  assert (Hab : c <> Gt -> leb a b = true).
  { unfold leb, SFleb. rewrite Hc. destruct c; congruence. }
  assert (Hba : c <> Lt -> leb b a = true).
  { unfold leb, SFleb. rewrite Hc'. destruct c; cbn; congruence. }
  unfold Math_max, ltb, SFltb. rewrite Ha, Hb, Hc, Hc'. cbn [orb].
  destruct c; cbn [CompOpp].
  - destruct a as [[|] | | |]; repeat split; auto; try (apply Hab; discriminate);
      try (apply Hba; discriminate).
  - repeat split; auto. apply Hab. discriminate.
  - repeat split; auto. apply Hba. discriminate.
Qed.

Lemma Math_min_spec (a b : double) :
  is_nan a = false -> is_nan b = false ->
  leb (Math_min a b) a = true /\ leb (Math_min a b) b = true /\
  (Math_min a b = a \/ Math_min a b = b).
Proof.
  intros Ha Hb.
  destruct (SFcompare_defined a b Ha Hb) as [c Hc].
  pose proof (SFcompare_antisym a b c Hc) as Hc'.
  pose proof (leb_refl a Ha) as Hra. pose proof (leb_refl b Hb) as Hrb.
  assert (Hab : c <> Gt -> leb a b = true).
  { unfold leb, SFleb. rewrite Hc. destruct c; congruence. }
  assert (Hba : c <> Lt -> leb b a = true).
  { unfold leb, SFleb. rewrite Hc'. destruct c; cbn; congruence. }
  unfold Math_min, ltb, SFltb. rewrite Ha, Hb, Hc, Hc'. cbn [orb].
  destruct c; cbn [CompOpp].
  - destruct a as [[|] | | |]; repeat split; auto; try (apply Hab; discriminate);
      try (apply Hba; discriminate).
  - repeat split; auto. apply Hab. discriminate.
  - repeat split; auto. apply Hba. discriminate.
Qed.

Lemma Math_max_not_nan (a b : double) :
  is_nan a = false -> is_nan b = false -> is_nan (Math_max a b) = false.
Proof.
  intros Ha Hb. destruct (Math_max_spec a b Ha Hb) as [_ [_ [-> | ->]]];
    assumption.
Qed.

Lemma Math_min_not_nan (a b : double) :
  is_nan a = false -> is_nan b = false -> is_nan (Math_min a b) = false.
Proof.
  intros Ha Hb. destruct (Math_min_spec a b Ha Hb) as [_ [_ [-> | ->]]];
    assumption.
Qed.

(** The clamp [Math.max(lo, Math.min(hi, x))]: NaN for a NaN argument, and a
    number of [[lo, hi]] otherwise, when [lo <= hi]. *)
Lemma clamp_nan (lo hi : double) :
  Math_max lo (Math_min hi nan) = nan.
Proof. now rewrite Math_min_nan_r, Math_max_nan_r. Qed.

Lemma clamp_in_range (lo hi x : double) :
  leb lo hi = true -> is_nan x = false ->
  leb lo (Math_max lo (Math_min hi x)) = true /\
  leb (Math_max lo (Math_min hi x)) hi = true.
Proof.
  intros Hlh Hx. destruct (leb_not_nan _ _ Hlh) as [Hlo Hhi].
  pose proof (Math_min_not_nan hi x Hhi Hx) as Hy.
  destruct (Math_min_spec hi x Hhi Hx) as [Hyh _].
  destruct (Math_max_spec lo (Math_min hi x) Hlo Hy) as [H1 [_ [E | E]]].
  - split; [exact H1 |]. rewrite E. exact Hlh.
  - split; [exact H1 |]. rewrite E. exact Hyh.
Qed.

Lemma clamp_nan_or_in_range (lo hi x : double) :
  leb lo hi = true ->
  is_nan (Math_max lo (Math_min hi x)) = true \/
  (leb lo (Math_max lo (Math_min hi x)) = true /\
   leb (Math_max lo (Math_min hi x)) hi = true).
Proof.
  intro Hlh. destruct (is_nan x) eqn:Hx.
  - left. destruct x; try discriminate. now rewrite clamp_nan.
  - right. now apply clamp_in_range.
Qed.

End DoubleOrder.

Section DoubleValueMapper.

Import Double DoubleUtils.

(** ** The value mapper on binary64 numbers *)

Lemma double_div_defined (a b : double) :
  eqb b zero = false -> div a b = Some (quot a b).
Proof. intro H. unfold div. now rewrite H. Qed.

(** The library's guard keeps [interpolate] from dividing by zero. *)
Lemma double_interpolate_defined (x : double) (input output : double * double)
    (type : Extrapolation) :
  exists v, interpolate x input output type = Some v.
Proof.
  destruct input as [li ri], output as [lo ro]. unfold interpolate.
  destruct (eqb (sub ri li) zero) eqn:E; [eauto |].
  rewrite (double_div_defined _ _ E). cbn [bind].
  destruct type; [eauto |].
  destruct (ltb _ _); [eauto |]. destruct (gtb _ _); eauto.
Qed.

(** [calculateSteppedValue] divides by a positive step only, and ends with
    the clamp. *)
Lemma double_calculateSteppedValue_clamped (value step min max : double) :
  exists steppedValue,
    calculateSteppedValue value step min max
    = Some (Math_max min (Math_min max steppedValue)) /\
    steppedValue
    = (if gtb step zero then mul (Math_round (quot value step)) step
       else value).
Proof.
  unfold calculateSteppedValue.
  destruct (gtb step zero) eqn:E.
  - rewrite (double_div_defined _ _ (gtb_zero_not_eqb _ E)). cbn [bind].
    eauto.
  - cbn [bind]. eauto.
Qed.

Lemma double_calculateSteppedValue_nan_or_in_range
    (value step min max v : double) :
  leb min max = true ->
  calculateSteppedValue value step min max = Some v ->
  is_nan v = true \/ (leb min v = true /\ leb v max = true).
Proof.
  intros Hm Hv.
  destruct (double_calculateSteppedValue_clamped value step min max)
    as [sv [Hsv _]].
  rewrite Hsv in Hv. injection Hv as <-.
  now apply clamp_nan_or_in_range.
Qed.




(** The default slider at position [161] reports [57]: the interpolated
    value is [57.49999999999999]. *)
Example double_positionToValue_161 :
  positionToValue (of_Z 161) (of_Z 280) zero (of_Z 100) one = Some (of_Z 57).
Proof. vm_compute. reflexivity. Qed.




End DoubleValueMapper.

Section DoubleDegenerateTrack.

Import Double DoubleUtils.

Lemma eqb_refl (a : double) : is_nan a = false -> eqb a a = true.
Proof. intro H. unfold eqb, SFeqb. now rewrite (SFcompare_refl a H). Qed.

(** Below a number that is at most zero there are only such numbers. *)
Lemma leb_zero_trans (y x : double) :
  leb y x = true -> leb x zero = true -> leb y zero = true.
Proof.
  unfold leb, SFleb, zero.
  destruct x as [sx | sx | | sx mx ex], y as [sy | sy | | sy my ey];
    cbn; try discriminate; try reflexivity;
    destruct sx, sy; cbn; try discriminate; try reflexivity.
Qed.

Lemma Math_max_zero_nonpositive (y : double) :
  leb y zero = true -> Math_max zero y = zero.
Proof.
  unfold leb, SFleb, zero.
  destruct y as [s | s | | s m e]; cbn; try discriminate;
    destruct s; cbn; try discriminate; reflexivity.
Qed.

(** On a track of non-positive width every position is clamped to [0]. *)
Lemma clampPosition_nonpositive_track (position trackWidth : double) :
  leb trackWidth zero = true -> is_nan position = false ->
  clampPosition position zero trackWidth = zero.
Proof.
  intros Hw Hp. unfold clampPosition.
  destruct (leb_not_nan _ _ Hw) as [Hwn _].
  destruct (Math_min_spec trackWidth position Hwn Hp) as [Hle _].
  apply Math_max_zero_nonpositive.
  exact (leb_zero_trans _ _ Hle Hw).
Qed.

(** The value interpolated at position [0] of such a track: [min] by the
    zero-width guard, and [min + (-0) * (max - min)] for a negative width. *)
Lemma interpolate_nonpositive_track (trackWidth min max : double) :
  leb trackWidth zero = true ->
  interpolate zero (zero, trackWidth) (min, max) Extend
  = Some (if eqb trackWidth zero then min
          else add min (mul (S754_zero true) (sub max min))).
Proof.
  unfold leb, SFleb, zero.
  destruct trackWidth as [s | s | | s m e]; cbn; try discriminate;
    destruct s; cbn; try discriminate; reflexivity.
Qed.

Lemma min_plus_signed_zero (min d : double) :
  is_nan min = false -> is_finite d = true ->
  eqb (add min (mul (S754_zero true) d)) min = true.
Proof.
  intros Hm Hd.
  destruct d as [sd | sd | | sd md ed]; try discriminate;
    destruct min as [sm | sm | | sm mm em]; try discriminate; cbn;
    try (destruct sm, sd; reflexivity);
    try (destruct sm; reflexivity);
    try (change (PosDef.Pos.compare_cont Eq mm mm)
           with (Pos.compare_cont Eq mm mm);
         rewrite Z.compare_refl, Pos.compare_cont_refl;
         destruct sm; reflexivity).
Qed.

(** Clamping [min] itself to [[min, max]] gives [min], also for inverted
    bounds. *)
Lemma clamp_self (min max : double) :
  is_nan min = false -> is_nan max = false ->
  Math_max min (Math_min max min) = min.
Proof.
  intros Hm Hx.
  destruct (SFcompare_defined max min Hx Hm) as [c Hc].
  pose proof (SFcompare_antisym _ _ _ Hc) as Hc'.
  pose proof (SFcompare_refl min Hm) as Hr.
  destruct c; cbn [CompOpp] in Hc'.
  - assert (Hmin : Math_min max min = max \/ Math_min max min = min).
    { exact (proj2 (proj2 (Math_min_spec max min Hx Hm))). }
    assert (Hy : Math_min max min
                 = match max with S754_zero false => min | _ => max end).
    { unfold Math_min, ltb, SFltb. now rewrite Hx, Hm, Hc, Hc'. }
    destruct max as [[|] | sx | | sx mx ex]; try discriminate.
    + rewrite Hy. unfold Math_max, ltb, SFltb. rewrite Hm. cbn [is_nan orb].
      rewrite Hc', Hc.
      destruct (SFcompare_Eq_zero _ _ Hc') as [s' ->].
      cbn in Hc. destruct s'; reflexivity.
    + rewrite Hy. unfold Math_max, ltb, SFltb. rewrite Hm, Hr.
      cbn [orb]. destruct min as [[|] | | |]; reflexivity.
    + rewrite Hy. unfold Math_max, ltb, SFltb. rewrite Hm. cbn [is_nan orb].
      rewrite Hc', Hc. destruct min as [[|] | | |]; try reflexivity.
      cbn in Hc. destruct sx; discriminate.
    + rewrite Hy. unfold Math_max, ltb, SFltb. rewrite Hm. cbn [is_nan orb].
      rewrite Hc', Hc. destruct min as [[|] | | |]; try reflexivity.
      cbn in Hc. destruct sx; discriminate.
  - assert (Hy : Math_min max min = max).
    { unfold Math_min, ltb, SFltb. now rewrite Hx, Hm, Hc. }
    rewrite Hy. unfold Math_max, ltb, SFltb. now rewrite Hm, Hx, Hc', Hc.
  - assert (Hy : Math_min max min = min).
    { unfold Math_min, ltb, SFltb. now rewrite Hx, Hm, Hc, Hc'. }
    rewrite Hy. unfold Math_max, ltb, SFltb. rewrite Hm, Hr. cbn [orb].
    destruct min as [[|] | | |]; reflexivity.
Qed.

(** Clamping a number equal to [min] gives a number equal to [min]. *)
Lemma clamp_of_min (raw min max : double) :
  is_nan min = false -> is_nan max = false -> eqb raw min = true ->
  eqb (Math_max min (Math_min max raw)) min = true.
Proof.
  intros Hm Hx He.
  destruct (eqb_cases _ _ He) as [[-> _] | [s [s' [-> ->]]]].
  - rewrite (clamp_self min max Hm Hx). now apply eqb_refl.
  - destruct max as [sx | sx | | sx mx ex]; try discriminate;
      destruct s, s', sx; reflexivity.
Qed.

End DoubleDegenerateTrack.

Section DoubleClaims.

Import Double DoubleUtils.

(** C4, as the code has it: for [trackWidth <= 0] and a position that is a
    number, [positionToValue] divides by no zero; the position is clamped to
    [0] and the interpolated value is [min] when [trackWidth] is zero and
    [min + (-0) * (max - min)] when it is negative, which equals [min] when
    [min] is a number and [max - min] is finite; the value returned is the
    interpolated value, quantised to [round(value/step) * step] when
    [step > 0], clamped to [[min, max]]: it equals [min] when [step > 0]
    does not hold and [max] is a number. *)
Theorem double_positionToValue_degenerate_track
    (position trackWidth min max step : double) :
  leb trackWidth zero = true -> is_nan position = false ->
  exists raw v,
    interpolate (clampPosition position zero trackWidth) (zero, trackWidth)
      (min, max) Extend = Some raw /\
    positionToValue position trackWidth min max step = Some v /\
    raw = (if eqb trackWidth zero then min
           else add min (mul (S754_zero true) (sub max min))) /\
    v = Math_max min
          (Math_min max
             (if gtb step zero then mul (Math_round (quot raw step)) step
              else raw)) /\
    (is_nan min = false ->
     eqb trackWidth zero = true \/ is_finite (sub max min) = true ->
     eqb raw min = true /\
     (is_nan max = false -> gtb step zero = false -> eqb v min = true)).
Proof.
  intros Hw Hp. unfold positionToValue.
  rewrite (clampPosition_nonpositive_track _ _ Hw Hp).
  rewrite (interpolate_nonpositive_track _ min max Hw). cbn [bind].
  set (raw := if eqb trackWidth zero then min
              else add min (mul (S754_zero true) (sub max min))).
  destruct (double_calculateSteppedValue_clamped raw step min max)
    as [sv [Hsv Esv]].
  exists raw. eexists. split; [reflexivity |]. split; [exact Hsv |].
  split; [reflexivity |]. split; [now rewrite Esv |].
  intros Hm Hcase.
  assert (Hraw : eqb raw min = true).
  { unfold raw. destruct (eqb trackWidth zero) eqn:Ez.
    - now apply eqb_refl.
    - destruct Hcase as [Hz | Hfin]; [discriminate |].
      now apply min_plus_signed_zero. }
  split; [exact Hraw |]. intros Hx Hs.
  rewrite Esv, Hs. now apply clamp_of_min.
Qed.

Lemma double_positionToValue_degenerate_track_witness :
  exists raw v,
    interpolate (clampPosition (of_Z 12) zero (of_Z (-20))) (zero, of_Z (-20))
      (of_Z 7, of_Z 100) Extend = Some raw /\
    positionToValue (of_Z 12) (of_Z (-20)) (of_Z 7) (of_Z 100) (of_Z 10)
    = Some v /\
    raw = (if eqb (of_Z (-20)) zero then of_Z 7
           else add (of_Z 7)
                  (mul (S754_zero true) (sub (of_Z 100) (of_Z 7)))) /\
    v = Math_max (of_Z 7)
          (Math_min (of_Z 100)
             (if gtb (of_Z 10) zero
              then mul (Math_round (quot raw (of_Z 10))) (of_Z 10)
              else raw)) /\
    (is_nan (of_Z 7) = false ->
     eqb (of_Z (-20)) zero = true
     \/ is_finite (sub (of_Z 100) (of_Z 7)) = true ->
     eqb raw (of_Z 7) = true /\
     (is_nan (of_Z 100) = false -> gtb (of_Z 10) zero = false ->
      eqb v (of_Z 7) = true)).
Proof.
  apply (double_positionToValue_degenerate_track (of_Z 12) (of_Z (-20))
           (of_Z 7) (of_Z 100) (of_Z 10)); reflexivity.
Defined.

(** C4 as stated fails: on a zero-width track with [min = 7], [max = 100]
    and [step = 10] the value returned is [10], not [min]; and on a track of
    width [-20] with [min = -1e308] and [max = 1e308] it is NaN. *)
Lemma double_positionToValue_degenerate_track_not_min :
  leb zero zero = true /\
  positionToValue (of_Z 12) zero (of_Z 7) (of_Z 100) (of_Z 10)
  = Some (of_Z 10) /\
  eqb (of_Z 10) (of_Z 7) = false /\
  leb (of_Z (-20)) zero = true /\
  positionToValue (of_Z 12) (of_Z (-20)) (of_Z (- 10 ^ 308))
    (of_Z (10 ^ 308)) zero = Some nan.
Proof. vm_compute. repeat split. Qed.


End DoubleClaims.

Section DoubleRangeSliderClaims.

Import Double DoubleRangeSlider.

Lemma Math_min_nan_or_le_r (a b : double) :
  is_nan (Math_min a b) = true \/ leb (Math_min a b) b = true.
Proof.
  destruct (is_nan a) eqn:Ha.
  { left. destruct a; try discriminate. reflexivity. }
  destruct (is_nan b) eqn:Hb.
  { left. destruct b; try discriminate. now rewrite Math_min_nan_r. }
  right. exact (proj1 (proj2 (Math_min_spec a b Ha Hb))).
Qed.

Lemma Math_max_nan_or_ge_r (a b : double) :
  is_nan (Math_max a b) = true \/ geb (Math_max a b) b = true.
Proof.
  destruct (is_nan a) eqn:Ha.
  { left. destruct a; try discriminate. reflexivity. }
  destruct (is_nan b) eqn:Hb.
  { left. destruct b; try discriminate. now rewrite Math_max_nan_r. }
  right. unfold geb. exact (proj1 (proj2 (Math_max_spec a b Ha Hb))).
Qed.

(** Each callback leaves the thumb it moves on its side of the bound it
    computed from the other thumb. *)
Lemma step_event_bounds_moved_thumb (props : Props) (s : State) (e : Event) :
  moved_thumb_bounded props e (step_event props s e).
Proof.
  destruct e as [| t | | | t | | x]; cbn; try exact I.
  - apply Math_min_nan_or_le_r.
  - apply Math_max_nan_or_ge_r.
Qed.

Lemma double_run_snoc (props : Props) (s : State) (events : list Event)
    (e : Event) :
  run props s (events ++ [e]) = step_event props (run props s events) e.
Proof. unfold run. now rewrite fold_left_app. Qed.

(** C7, as the code has it: from any state and after any sequence of
    callbacks, right after a left-pan update the left thumb is at or below
    [rightPosition - thumbSize] as the code computes that difference, and
    right after a right-pan update the right thumb is at or above
    [leftPosition + thumbSize] as the code computes that sum, unless the
    position written is NaN. *)
Theorem double_pan_update_bounds_moved_thumb
    (props : Props) (s : State) (before : list Event) (e : Event) :
  moved_thumb_bounded props e (run props s (before ++ [e])).
Proof.
  rewrite double_run_snoc. apply step_event_bounds_moved_thumb.
Qed.

(** C7 as stated fails by a rounding error.  With the right thumb at [32.1]
    and [thumbSize = 15.9], a left-pan update puts the left thumb at
    [16.200000000000003]: the difference [rightPosition - leftPosition] is
    below [thumbSize], as the code computes it and exactly.  With
    [thumbSize = 20] and the left thumb at [5.7], a right-pan update puts the
    right thumb at [25.7], exactly less than [20] above the left thumb. *)
Lemma double_pan_update_gap_below_thumbSize :
  (let props := mkProps zero (of_Z 100) zero (of_Z 100) one (of_Z 300)
                  (decimal 159 10) true in
   let s := mkState zero (decimal 321 10) zero zero zero zero in
   let s' := run props s [LeftPanUpdate (of_Z 1000)] in
   is_pan_update (LeftPanUpdate (of_Z 1000)) = true /\
   geb (sub (rightPosition s') (leftPosition s')) (thumbSize props) = false /\
   match to_Q (rightPosition s'), to_Q (leftPosition s'),
         to_Q (thumbSize props) with
   | Some r, Some l, Some t => r - l < t
   | _, _, _ => False
   end) /\
  (let props := mkProps zero (of_Z 100) zero (of_Z 100) one (of_Z 300)
                  (of_Z 20) true in
   let s := mkState (decimal 57 10) (of_Z 280) zero zero zero zero in
   let s' := run props s [RightPanUpdate (of_Z (-1000))] in
   match to_Q (rightPosition s'), to_Q (leftPosition s'),
         to_Q (thumbSize props) with
   | Some r, Some l, Some t => r - l < t
   | _, _, _ => False
   end).
Proof. vm_compute. repeat split. Qed.

End DoubleRangeSliderClaims.

Section DoubleRangeValues.

Import Double DoubleRangeSlider.

(** X20: for [min <= max], each of the two values the range slider hands to
    [onRangeChange] is NaN or lies in [[min, max]], for any thumb positions,
    also outside the track; no division by zero is evaluated. *)
Theorem double_range_values_nan_or_in_range (props : Props) (s : State) :
  leb (min props) (max props) = true ->
  exists l r,
    updateRangeValues props s = Some (l, r) /\
    (is_nan l = true
     \/ (leb (min props) l = true /\ leb l (max props) = true)) /\
    (is_nan r = true
     \/ (leb (min props) r = true /\ leb r (max props) = true)).
Proof.
  intro Hm. unfold updateRangeValues.
  destruct (double_interpolate_defined (leftPosition s)
              (zero, trackWidth props) (min props, max props) Clamp)
    as [a Ha].
  destruct (double_interpolate_defined (rightPosition s)
              (zero, trackWidth props) (min props, max props) Clamp)
    as [b Hb].
  rewrite Ha, Hb. cbn [bind].
  destruct (double_calculateSteppedValue_clamped a (step props) (min props)
              (max props)) as [sa [Hsa _]].
  destruct (double_calculateSteppedValue_clamped b (step props) (min props)
              (max props)) as [sb [Hsb _]].
  rewrite Hsa, Hsb. cbn [bind]. do 2 eexists. split; [reflexivity |].
  split; now apply clamp_nan_or_in_range.
Qed.

Lemma double_range_values_nan_or_in_range_witness :
  let props := mkProps zero (of_Z 100) zero (of_Z 100) one (of_Z 300)
                 (of_Z 20) true in
  exists l r,
    updateRangeValues props
      (mkState (of_Z (-400)) (of_Z 999) zero zero zero zero) = Some (l, r) /\
    (is_nan l = true
     \/ (leb (min props) l = true /\ leb l (max props) = true)) /\
    (is_nan r = true
     \/ (leb (min props) r = true /\ leb r (max props) = true)).
Proof.
  intro props.
  apply (double_range_values_nan_or_in_range props). reflexivity.
Defined.

End DoubleRangeValues.
